(** * reggy: the query server and the summary server

    A shallow embedding of [query.py] (the store of signed queries, the feed
    ingestion, the per-registry filter and the connection handler) and of
    [summarize.py] (the value tally), with the properties their description
    states about them.

    Conventions of the embedding.
    - A Python [dict] used as a map is a [gmap]; a [dict] or [list] that is
      iterated in order and whose order decides what happens (the feed, the
      returned batch) is a [list].
    - The process-wide [signed_query_store] and what a handler does on the
      wire are threaded through a state-and-exception monad: an exception
      leaves the mutations made before it in place, as in Python.
    - [lib.sign], [lib.verify], [lib.decrypt_and_deserialize],
      [json.dumps] and the constants of [config] live outside the two
      modules; they are section variables.
    - Logging is not modelled. *)

From stdpp Require Import gmap strings list fin_maps.

Open Scope string_scope.
Open Scope list_scope.
Set Warnings "-register-all".

(** ** JSON values *)

(** What [json.loads] produces.  Numbers are integers here; none of the code
    below computes with them. *)
Inductive json : Type :=
  | JNull
  | JBool (b : bool)
  | JNum (z : Z)
  | JStr (s : string)
  | JArr (l : list json)
  | JObj (l : list (string * json)).

(** Python truth value of a decoded JSON value, as tested by [if x] and
    [not x]. *)
Definition truthy (j : json) : bool :=
  match j with
  | JNull => false
  | JBool b => b
  | JNum z => negb (Z.eqb z 0)
  | JStr s => negb (String.eqb s "")
  | JArr l => negb (bool_decide (l = []))
  | JObj l => negb (bool_decide (l = []))
  end.

(** Python truth value of a string. *)
Definition str_truthy (s : string) : bool := negb (String.eqb s "").

(** [query.get('status')] is [None] when the key is absent, and [None] is
    false. *)
Definition get_truthy (o : option json) : bool :=
  match o with
  | None => false
  | Some j => truthy j
  end.

(** ** Query records *)

(** An entry of the feed, [{id, status?, fields, sources}]. *)
Record feed_query : Type := FeedQuery {
  id : string;
  status : option json;
  fields : json;
  sources : list string
}.

(** A record of the store: the feed entry with the two keys that
    [fetch_queries] adds to it. *)
Record query : Type := Query {
  entry : feed_query;
  signed_by : list string;
  signed : json
}.

(** ** Exceptions, wire events and the handler state *)

Inductive exn : Type :=
  | KeyError (key : string)
  | ValueError (msg : string) (query_id : string)
  | Exception (msg : string) (source_id : string).

(** What a handler does towards the outside: the GET of the feed and the
    frame sent to the registry (its plaintext and the recipient key it is
    encrypted for). *)
Inductive event : Type :=
  | EvFetchFeed
  | EvSend (queries : list query) (recipient : string).

Record state : Type := State {
  signed_query_store : gmap string query;
  trace : list event
}.

Inductive result (A : Type) : Type :=
  | Ok (a : A)
  | Raised (e : exn).
Arguments Ok {A} a.
Arguments Raised {A} e.

Module PyMonad.

Definition M (A : Type) : Type := state → result A * state.

Definition ret {A} (a : A) : M A := λ st, (Ok a, st).

Definition bind {A B} (m : M A) (k : A → M B) : M B :=
  λ st, match m st with
        | (Ok a, st') => k a st'
        | (Raised e, st') => (Raised e, st')
        end.

Definition raise {A} (e : exn) : M A := λ st, (Raised e, st).

Definition get_store : M (gmap string query) :=
  λ st, (Ok (signed_query_store st), st).

Definition put_store (s : gmap string query) : M unit :=
  λ st, (Ok tt, State s (trace st)).

Definition emit (e : event) : M unit :=
  λ st, (Ok tt, State (signed_query_store st) (trace st ++ [e])).

(** [for x in l: body x] *)
Fixpoint for_each {A} (l : list A) (body : A → M unit) : M unit :=
  match l with
  | [] => ret tt
  | x :: l' => bind (body x) (λ _, for_each l' body)
  end.

(** [signed_query_store[key]] as an expression *)
Definition getitem (key : string) : M query :=
  bind get_store (λ s,
    match s !! key with
    | Some q => ret q
    | None => raise (KeyError key)
    end).

(** [signed_query_store[key] = q] *)
Definition setitem (key : string) (q : query) : M unit :=
  bind get_store (λ s, put_store (<[key := q]> s)).

(** [del signed_query_store[key]] *)
Definition delitem (key : string) : M unit :=
  bind get_store (λ s,
    match s !! key with
    | Some _ => put_store (delete key s)
    | None => raise (KeyError key)
    end).

End PyMonad.
Import PyMonad.

#[global] Instance M_ret : MRet M := @ret.
#[global] Instance M_bind : MBind M := λ A B k m, bind m k.

(** ** query.py *)

Section Query.

(** [sign(original).data.decode("utf-8")] *)
Variable sign : string → string.
(** truth value of [verify(query)] *)
Variable verify : json → bool.
(** [json.dumps] *)
Variable dumps : json → string.
(** [config.RECIPIENTS] *)
Variable RECIPIENTS : gmap string string.

(** The body of the loop of [fetch_queries], for one feed entry. *)
Definition fetch_query (query : feed_query) : M unit :=
  let query_id := id query in
  s ← get_store;
  if negb (get_truthy (status query)) && bool_decide (s !! query_id = None)
  then
    let original := dumps (fields query) in
    let signed := sign original in
    setitem query_id (Query query [] (JStr signed))
  else if get_truthy (status query) then
    delitem query_id
  else ret tt.

(** [fetch_queries(registry_id)]; [web_server_queries] is the decoded
    body that the web server answers with. *)
Definition fetch_queries (web_server_queries : list feed_query)
    (registry_id : string) : M unit :=
  emit EvFetchFeed;;
  for_each web_server_queries fetch_query.

(** [filter_queries(registry_id)] *)
Definition filter_queries (registry_id : string)
    (s : gmap string query) : list query :=
  (filter (λ kv, registry_id ∈ sources (entry kv.2)) (map_to_list s)).*2.

(** Lines 110-111 of the handler: the record is mutated in place. *)
Definition merge_signed (source_id query_id : string) (query : json)
    : M unit :=
  r ← getitem query_id;
  setitem query_id (Query (entry r) (signed_by r ++ [source_id]) (signed r));;
  r' ← getitem query_id;
  setitem query_id (Query (entry r') (signed_by r') query).

(** The body of the loop over the returned batch. *)
Definition handle_signed_query (source_id : string)
    (kv : string * json) : M unit :=
  let '(query_id, query) := kv in
  let verified := verify query in
  if negb verified then
    raise (ValueError "Signature could not be verified for query_id %s"
                      query_id)
  else merge_signed source_id query_id query.

(** The loop over [signed_queries.items()]. *)
Definition handle_signed_queries (source_id : string)
    (signed_queries : list (string * json)) : M unit :=
  for_each signed_queries (handle_signed_query source_id).

Definition valid_sources : list string := ["hunt"; "cancer"; "death"].

(** [config.RECIPIENTS[source_id]] as an expression *)
Definition recipient (source_id : string) : M string :=
  match RECIPIENTS !! source_id with
  | Some key => ret key
  | None => raise (KeyError source_id)
  end.

(** [QueryHandler.handle].  [data] is the ['source_id'] member of the
    request object, [None] when the object has none;
    [web_server_queries] is what the feed answers; [signed_queries] is
    the decrypted reply of the registry, in the order of its items.
    Failures of the transport and of the decoding of the two lines are
    outside the embedding. *)
Definition handle (data : option string)
    (web_server_queries : list feed_query)
    (signed_queries : list (string * json)) : M unit :=
  match data with
  | None => raise (KeyError "source_id")
  | Some source_id =>
    if bool_decide (is_Some data) && bool_decide (source_id ∈ valid_sources)
    then
      fetch_queries web_server_queries source_id;;
      s ← get_store;
      let queries := filter_queries source_id s in
      key ← recipient source_id;
      (if negb (str_truthy key) then
         raise (Exception "Could not find encryption config for %s"
                          source_id)
       else ret tt);;
      key' ← recipient source_id;
      emit (EvSend queries key');;
      handle_signed_queries source_id signed_queries
    else ret tt
  end.

End Query.

(** ** summarize.py *)

Section Summarize.

(** The values of a result line: hashable scalars, compared as the
    dictionary compares its keys. *)
Context {V : Type} `{Countable V}.

(** The body of the innermost loop of [create_summary].  After the first
    statement [results[key]] exists, so the subscripts below cannot
    fail; they are written with the total lookup. *)
Definition count_value (results : gmap string (gmap V nat))
    (key : string) (value : V) : gmap string (gmap V nat) :=
  let results :=
    if bool_decide (results !! key = None)
    then <[key := ∅]> results else results in
  let results :=
    if bool_decide ((results !!! key : gmap V nat) !! value = None)
    then alter (λ counts, <[value := 0]> counts) key results
    else results in
  alter (λ counts, <[value := (counts !!! value) + 1]> counts) key results.

(** [for key, value in registry_data.items()] *)
Definition count_registry_data (results : gmap string (gmap V nat))
    (registry_data : gmap string V) : gmap string (gmap V nat) :=
  foldl (λ results kv, count_value results kv.1 kv.2)
        results (map_to_list registry_data).

(** [for registry_data in individual_data] *)
Definition count_individual_data (results : gmap string (gmap V nat))
    (individual_data : list (gmap string V)) : gmap string (gmap V nat) :=
  foldl count_registry_data results individual_data.

(** [create_summary(data)] *)
Definition create_summary (data : list (list (gmap string V)))
    : gmap string (gmap V nat) :=
  foldl count_individual_data ∅ data.

(** [decrypt_and_deserialize] of [lib]: the decoded line, or the exception
    it raises. *)
Variable decrypt_and_deserialize : string → result (gmap string V).
(** [config.PRESENTATION_SERVER_RECIPIENT] and
    [config.PRESENTATION_SERVER_PORT] *)
Variable PRESENTATION_SERVER_RECIPIENT : string.
Variable PRESENTATION_SERVER_PORT : Z.

(** The decoded request of the summary server,
    [{"metadata": ..., "query_id": ..., "data": [[line, ...], ...]}]. *)
Record summary_request : Type := SummaryRequest {
  req_metadata : json;
  req_query_id : string;
  req_data : list (list string)
}.

(** What the summary handler does towards the outside: the summary it
    sends on to the presentation server, and the response it writes to the
    requester. *)
Inductive summary_event : Type :=
  | EvPresent (data : gmap string (gmap V nat)) (query_id : string)
              (metadata : json) (recipient : string) (port : Z)
  | EvRespond (response : string).

(** [out = []; for x in l: out.append(f(x))]: the first exception ends the
    loop. *)
Fixpoint collect {A B} (f : A → result B) (l : list A) : result (list B) :=
  match l with
  | [] => Ok []
  | x :: l' =>
      match f x with
      | Raised e => Raised e
      | Ok y =>
          match collect f l' with
          | Raised e => Raised e
          | Ok out => Ok (y :: out)
          end
      end
  end.

(** [SummaryHandler.handle], from the decoded request on: the events it
    emits and how it ends. *)
Definition SummaryHandler_handle (request : summary_request)
    : list summary_event * result unit :=
  let metadata := req_metadata request in
  let query_id := req_query_id request in
  match collect (collect decrypt_and_deserialize) (req_data request) with
  | Raised e => ([], Raised e)
  | Ok results =>
      let summary := create_summary results in
      ([EvPresent summary query_id metadata
                  PRESENTATION_SERVER_RECIPIENT PRESENTATION_SERVER_PORT;
        EvRespond ""],
       Ok tt)
  end.

End Summarize.

(** ** Vocabulary of the properties *)

(** The record that lines 110-111 leave in place of [r]. *)
Definition signed_as (source_id : string) (returned : json) (r : query)
    : query :=
  Query (entry r) (signed_by r ++ [source_id]) returned.

(** The store in which exactly the entries of [batch], in their order,
    have been merged for [source_id]. *)
Definition merged (source_id : string) (batch : list (string * json))
    (s : gmap string query) : gmap string query :=
  foldl (λ s kv, alter (signed_as source_id kv.2) kv.1 s) s batch.

Definition with_store (st : state) (s : gmap string query) : state :=
  State s (trace st).

(** The record that [fetch_queries] stores for a feed entry it has not seen
    before. *)
Definition first_seen (sign : string → string) (dumps : json → string)
    (q : feed_query) : query :=
  Query q [] (JStr (sign (dumps (fields q)))).

(** The feed as a mapping from id to first-seen record; of two entries with
    one id the earlier counts. *)
Definition feed_records (sign : string → string) (dumps : json → string)
    (feed : list feed_query) : gmap string query :=
  list_to_map ((λ q, (id q, first_seen sign dumps q)) <$> feed).

(** No entry of the feed has a true [status]. *)
Definition live_feed (feed : list feed_query) : Prop :=
  Forall (λ q, get_truthy (status q) = false) feed.

(** Every record is stored under its own id and has no true [status]. *)
Definition keyed_by_id (s : gmap string query) : Prop :=
  ∀ k r, s !! k = Some r →
    id (entry r) = k ∧ get_truthy (status (entry r)) = false.

(** Only valid sources have signed. *)
Definition signed_by_valid (s : gmap string query) : Prop :=
  ∀ k r, s !! k = Some r → Forall (λ src, src ∈ valid_sources) (signed_by r).

Section Tally.

Context {V : Type} `{Countable V}.

Local Abbreviation tally := (gmap string (gmap V nat)).

(** The count that a tally holds for a field and a value, if any. *)
Definition tally_at (results : tally) (f : string) (v : V) : option nat :=
  results !! f ≫= (λ counts, counts !! v).

(** The decrypted lines of the input, whatever the individual. *)
Definition all_lines (data : list (list (gmap string V)))
    : list (gmap string V) :=
  concat data.

(** The number of lines in which field [f] has value [v]. *)
Definition occurrences (f : string) (v : V) (lines : list (gmap string V))
    : nat :=
  length (filter (λ line, line !! f = Some v) lines).

(** No field without a value, no value with count zero. *)
Definition positive_tally (results : tally) : Prop :=
  ∀ f counts, results !! f = Some counts →
    counts ≠ ∅ ∧ ∀ v, counts !! v ≠ Some 0.

Definition items (lines : list (gmap string V)) : list (string * V) :=
  concat (map map_to_list lines).

Definition count_item (results : tally) (kv : string * V) : tally :=
  count_value results kv.1 kv.2.

(** The sum of the counts held for one field. *)
Definition field_total (counts : gmap V nat) : nat :=
  map_fold (λ _ n total, n + total) 0 counts.

End Tally.

(** The line that an encrypted line decodes to, the empty line if it does
    not decode. *)
Definition decoded {V : Type} `{Countable V}
    (decrypt_and_deserialize : string → result (gmap string V))
    (encrypted : string) : gmap string V :=
  match decrypt_and_deserialize encrypted with
  | Ok line => line
  | Raised _ => ∅
  end.

(** ** Sample inputs *)

Module Sample.

(** A verifier that accepts one payload only. *)
Definition verify (j : json) : bool :=
  match j with
  | JStr "good" => true
  | _ => false
  end.

Definition sign (original : string) : string := "signed:" ++ original.

Definition dumps (j : json) : string :=
  match j with
  | JStr s => s
  | _ => "{}"
  end.

Definition RECIPIENTS : gmap string string :=
  {[ "hunt" := "hunt-key"; "cancer" := "cancer-key"; "death" := "death-key" ]}.

Definition q1 : feed_query :=
  FeedQuery "q1" None (JObj [("a", JNum 1)]) ["hunt"].

Definition q2 : feed_query :=
  FeedQuery "q2" None (JObj [("b", JNum 2)]) ["hunt"; "cancer"].

(** A store that holds [q1] and [q2], both unsigned so far. *)
Definition store : gmap string query :=
  {[ "q1" := Query q1 [] (JStr "baseline1");
     "q2" := Query q2 [] (JStr "baseline2") ]}.

Definition st : state := State store [].

(** A returned batch whose first entry verifies and whose second does
    not. *)
Definition batch : list (string * json) :=
  [("q1", JStr "good"); ("q2", JStr "forged")].

Definition female : gmap string string := {[ "sex" := "F" ]}.
Definition male : gmap string string := {[ "sex" := "M" ]}.

Definition elder : gmap string string := {[ "sex" := "F"; "age" := "70+" ]}.

(** The input of the third scenario. *)
Definition data : list (list (gmap string string)) :=
  [[female; female]; [male]].

(** Another input, with its individuals swapped, and then with the lines
    of one individual swapped as well. *)
Definition cohort : list (list (gmap string string)) :=
  [[female; elder]; [male]].
Definition cohort_swapped : list (list (gmap string string)) :=
  [[male]; [female; elder]].
Definition cohort_reordered : list (list (gmap string string)) :=
  [[male]; [elder; female]].

(** A feed entry that retires [q1]. *)
Definition q1_done : feed_query :=
  FeedQuery "q1" (Some (JStr "done")) (JObj [("a", JNum 1)]) ["hunt"].

(** A decryption that knows three lines and raises on anything else. *)
Definition decrypt (encrypted : string) : result (gmap string string) :=
  match encrypted with
  | "enc(F)" => Ok female
  | "enc(M)" => Ok male
  | "enc(elder)" => Ok elder
  | _ => Raised (ValueError "cannot decrypt" encrypted)
  end.

(** The encrypted lines of [cohort], of [cohort_swapped] and of
    [cohort_reordered]. *)
Definition lines : list (list string) :=
  [["enc(F)"; "enc(elder)"]; ["enc(M)"]].
Definition lines_swapped : list (list string) :=
  [["enc(M)"]; ["enc(F)"; "enc(elder)"]].
Definition lines_reordered : list (list string) :=
  [["enc(M)"]; ["enc(elder)"; "enc(F)"]].

End Sample.

(** * Properties *)

(** ** The monad *)

Ltac py_unfold :=
  cbv beta iota zeta delta
    [mbind M_bind mret M_ret bind ret raise getitem setitem delitem
     get_store put_store emit signed_query_store trace].

Lemma for_each_cons {A} (x : A) l (body : A → M unit) st :
  for_each (x :: l) body st =
  match body x st with
  | (Ok _, st') => for_each l body st'
  | (Raised e, st') => (Raised e, st')
  end.
Proof. reflexivity. Qed.

Lemma for_each_app {A} (l1 l2 : list A) (body : A → M unit) st :
  for_each (l1 ++ l2) body st =
  match for_each l1 body st with
  | (Ok _, st') => for_each l2 body st'
  | (Raised e, st') => (Raised e, st')
  end.
Proof.
  revert st. induction l1 as [|x l1 IH]; intros st; [done|].
  rewrite <- app_comm_cons, !for_each_cons.
  destruct (body x st) as [[[]|e] st']; [apply IH | done].
Qed.

(** ** The store operations of the handler *)

Lemma with_store_id st : with_store st (signed_query_store st) = st.
Proof. by destruct st. Qed.

Section QueryProperties.

Variable sign : string → string.
Variable verify : json → bool.
Variable dumps : json → string.
Variable RECIPIENTS : gmap string string.

Lemma merge_signed_run source_id query_id query st :
  merge_signed source_id query_id query st =
  match signed_query_store st !! query_id with
  | None => (Raised (KeyError query_id), st)
  | Some r =>
      (Ok tt, with_store st (<[query_id := signed_as source_id query r]>
                               (signed_query_store st)))
  end.
Proof.
  unfold merge_signed. py_unfold. destruct st as [s tr]; simpl.
  destruct (s !! query_id) as [r|] eqn:Hr; simpl; [|done].
  rewrite lookup_insert_eq; simpl. by rewrite insert_insert_eq.
Qed.

Lemma handle_signed_query_verified source_id query_id query st r :
  verify query = true →
  signed_query_store st !! query_id = Some r →
  handle_signed_query verify source_id (query_id, query) st =
  (Ok tt, with_store st (alter (signed_as source_id query) query_id
                               (signed_query_store st))).
Proof.
  intros Hv Hr. unfold handle_signed_query. rewrite Hv; simpl.
  rewrite merge_signed_run, Hr. do 2 f_equal.
  apply map_eq; intros k. rewrite lookup_alter, lookup_insert.
  destruct (decide (query_id = k)) as [<-|]; [by rewrite Hr | done].
Qed.

Lemma handle_signed_query_unverified source_id query_id query st :
  verify query = false →
  handle_signed_query verify source_id (query_id, query) st =
  (Raised (ValueError "Signature could not be verified for query_id %s"
                      query_id), st).
Proof. intros Hv. unfold handle_signed_query. by rewrite Hv. Qed.

(** A batch whose entries all verify and all name records of the store is
    merged entirely. *)
Lemma handle_signed_queries_all source_id batch st :
  Forall (λ kv, verify kv.2 = true ∧ is_Some (signed_query_store st !! kv.1))
         batch →
  handle_signed_queries verify source_id batch st =
  (Ok tt, with_store st (merged source_id batch (signed_query_store st))).
Proof.
  unfold handle_signed_queries. revert st.
  induction batch as [|[k q] batch IH]; intros st Hall.
  - simpl. by rewrite with_store_id.
  - apply Forall_cons in Hall as [[Hv [r Hr]] Hall]. simpl in Hv, Hr.
    rewrite for_each_cons, (handle_signed_query_verified _ _ _ _ r Hv Hr).
    rewrite IH; [done|]. simpl.
    eapply Forall_impl; [exact Hall|]. intros [k' q'] [? ?]; split; [done|].
    simpl in *. by rewrite lookup_alter_is_Some.
Qed.

(** An entry with a true [status]: the record is deleted, and the [del]
    raises when there is none. *)
Lemma fetch_query_status q st :
  get_truthy (status q) = true →
  fetch_query sign dumps q st =
  match signed_query_store st !! id q with
  | Some _ => (Ok tt, with_store st (delete (id q) (signed_query_store st)))
  | None => (Raised (KeyError (id q)), st)
  end.
Proof.
  intros Hs. unfold fetch_query. py_unfold. rewrite Hs. simpl.
  destruct st as [s tr]; simpl. by destruct (s !! id q).
Qed.

(** C1.  The loop over the returned batch merges a prefix of the batch and
    nothing else; every entry of that prefix verified (and names a record
    of the store), and the prefix is the whole batch exactly when the loop
    ends without an exception.  So no entry whose verification fails is
    ever merged. *)
Theorem handle_signed_queries_only_verified source_id batch st :
  ∃ pre post,
    batch = pre ++ post ∧
    Forall (λ kv, verify kv.2 = true ∧
                  is_Some (signed_query_store st !! kv.1)) pre ∧
    (handle_signed_queries verify source_id batch st).2 =
      with_store st (merged source_id pre (signed_query_store st)) ∧
    match (handle_signed_queries verify source_id batch st).1 with
    | Ok _ => post = []
    | Raised _ => post ≠ []
    end.
Proof.
  unfold handle_signed_queries. revert st.
  induction batch as [|[k q] batch IH]; intros st.
  - exists [], []. simpl. by rewrite with_store_id.
  - rewrite for_each_cons.
    destruct (verify q) eqn:Hv.
    + destruct (signed_query_store st !! k) as [r|] eqn:Hr.
      * rewrite (handle_signed_query_verified _ _ _ _ r Hv Hr).
        set (st1 := with_store st _).
        destruct (IH st1) as (pre & post & -> & Hall & Hst & Hres).
        exists ((k, q) :: pre), post. split_and!; [done| |done|done].
        constructor; [simpl; split; [done | by eexists] |].
        eapply Forall_impl; [exact Hall|]. intros [k' q'] [? Hk']. split; [done|].
        subst st1. simpl in *. by rewrite lookup_alter_is_Some in Hk'.
      * unfold handle_signed_query. rewrite Hv; simpl.
        rewrite merge_signed_run, Hr.
        exists [], ((k, q) :: batch). simpl. by rewrite with_store_id.
    + rewrite (handle_signed_query_unverified _ _ _ _ Hv).
      exists [], ((k, q) :: batch). simpl. by rewrite with_store_id.
Qed.

(** C2, as the code has it.  When an entry fails verification and the
    entries before it all verify and name records of the store, the loop
    stops at that entry with the [ValueError]; the entries before it stay
    merged, and neither the failing entry nor any entry after it is. *)
Theorem handle_signed_queries_abort source_id pre query_id query post st :
  Forall (λ kv, verify kv.2 = true ∧
                is_Some (signed_query_store st !! kv.1)) pre →
  verify query = false →
  handle_signed_queries verify source_id (pre ++ (query_id, query) :: post) st
  = (Raised (ValueError "Signature could not be verified for query_id %s"
                        query_id),
     with_store st (merged source_id pre (signed_query_store st))).
Proof.
  intros Hall Hv.
  pose proof (handle_signed_queries_all source_id pre st Hall) as Hpre.
  unfold handle_signed_queries in *.
  rewrite for_each_app, Hpre, for_each_cons.
  by rewrite (handle_signed_query_unverified _ _ _ _ Hv).
Qed.

(** C3.  A feed entry without [status]: when its id is new, the store
    gains the entry with [signed_by = []] and the signature of the dumped
    [fields] as [signed]; when the id is there already, nothing changes.
    Ingesting the entry twice is the same as ingesting it once. *)
Theorem fetch_query_without_status i f srcs st :
  let q := FeedQuery i None f srcs in
  fetch_query sign dumps q st =
    (Ok tt,
     match signed_query_store st !! i with
     | Some _ => st
     | None =>
         with_store st (<[i := Query q [] (JStr (sign (dumps f)))]>
                          (signed_query_store st))
     end)
  ∧ (fetch_query sign dumps q;; fetch_query sign dumps q) st =
    fetch_query sign dumps q st.
Proof.
  intros q.
  assert (Hone : ∀ st', fetch_query sign dumps q st' =
    (Ok tt,
     match signed_query_store st' !! i with
     | Some _ => st'
     | None =>
         with_store st' (<[i := Query q [] (JStr (sign (dumps f)))]>
                           (signed_query_store st'))
     end)).
  { intros [s tr]. unfold fetch_query. py_unfold. simpl.
    by destruct (s !! i). }
  split; [apply Hone|].
  change ((fetch_query sign dumps q;; fetch_query sign dumps q) st)
    with (bind (fetch_query sign dumps q)
               (λ _, fetch_query sign dumps q) st).
  unfold bind. rewrite !Hone.
  destruct (signed_query_store st !! i) eqn:Hi.
  - by rewrite Hi.
  - simpl. by rewrite lookup_insert_eq.
Qed.

(** C4.  A feed entry with [status] set whose id is not in the store:
    [del] raises [KeyError], and the fetch ends there. *)
Theorem fetch_queries_status_absent_raises :
  fetch_queries sign dumps
    [FeedQuery "q1" (Some (JStr "done")) (JObj []) ["hunt"]] "hunt"
    (State ∅ [])
  = (Raised (KeyError "q1"), State ∅ [EvFetchFeed]).
Proof. reflexivity. Qed.

(** C5.  The merge of one returned query: [KeyError] and an untouched
    store when the id is not in the store; otherwise the registry is
    appended to [signed_by] and [signed] becomes the returned query. *)
Theorem merge_signed_spec source_id query_id returned st :
  merge_signed source_id query_id returned st =
  match signed_query_store st !! query_id with
  | None => (Raised (KeyError query_id), st)
  | Some r =>
      (Ok tt,
       {| signed_query_store :=
            <[query_id := {| entry := entry r;
                             signed_by := signed_by r ++ [source_id];
                             signed := returned |}]>
              (signed_query_store st);
          trace := trace st |})
  end.
Proof. apply merge_signed_run. Qed.

(** C6.  [filter_queries] returns the records of the store that list the
    registry among their sources: a record is returned iff the store
    holds it under some id and its sources contain the registry, and each
    such id contributes once. *)
Theorem filter_queries_spec registry_id (s : gmap string query) :
  (∀ q, q ∈ filter_queries registry_id s ↔
        ∃ query_id, s !! query_id = Some q ∧
                    registry_id ∈ sources (entry q)) ∧
  filter_queries registry_id s ≡ₚ
    (map_to_list
       (filter (λ kv, registry_id ∈ sources (entry kv.2)) s)).*2.
Proof.
  unfold filter_queries. split.
  - intros q. rewrite list_elem_of_fmap. split.
    + intros ([k q'] & -> & Hin). apply list_elem_of_filter in Hin as [HP Hin].
      apply elem_of_map_to_list in Hin. eauto.
    + intros (k & Hk & HP). exists (k, q). split; [done|].
      apply list_elem_of_filter. split; [done|].
      by apply elem_of_map_to_list.
  - apply fmap_Permutation, NoDup_Permutation.
    + apply NoDup_filter, NoDup_map_to_list.
    + apply NoDup_map_to_list.
    + intros [k q]. rewrite list_elem_of_filter, !elem_of_map_to_list.
      rewrite map_lookup_filter_Some. tauto.
Qed.

(** C7.  A request whose [source_id] is not one of the three valid
    sources: the handler returns at once; the store is what it was, the
    feed is not fetched and nothing is sent. *)
Theorem handle_unknown_source source_id web_server_queries signed_queries st :
  source_id ∉ valid_sources →
  handle sign verify dumps RECIPIENTS (Some source_id)
         web_server_queries signed_queries st = (Ok tt, st).
Proof.
  intros Hnot. unfold handle.
  rewrite (bool_decide_eq_false_2 _ Hnot), andb_false_r. done.
Qed.

(** C10.  [fetch_queries] does not look at its argument. *)
Theorem fetch_queries_registry_independent web_server_queries r1 r2 st :
  fetch_queries sign dumps web_server_queries r1 st =
  fetch_queries sign dumps web_server_queries r2 st.
Proof. reflexivity. Qed.

End QueryProperties.

(** ** The tally *)

Section SummarizeProperties.

Context {V : Type} `{Countable V}.

Local Abbreviation tally := (gmap string (gmap V nat)).

Lemma alter_lookup_Some {A} (g : A → A) (m : gmap string A) k x :
  m !! k = Some x → alter g k m = <[k := g x]> m.
Proof.
  intros Hk. apply map_eq; intros j. rewrite lookup_alter, lookup_insert.
  destruct (decide (k = j)) as [<-|]; [by rewrite Hk | done].
Qed.

(** The three statements of the loop body, as one update. *)
Lemma count_value_insert (results : tally) key value :
  count_value results key value =
  let counts := default ∅ (results !! key) in
  <[key := <[value := default 0 (counts !! value) + 1]> counts]> results.
Proof.
  unfold count_value. destruct (results !! key) as [counts|] eqn:Hk; simpl.
  - rewrite lookup_total_alt, Hk; simpl.
    destruct (counts !! value) as [n|] eqn:Hv; simpl.
    + rewrite (alter_lookup_Some _ _ _ _ Hk).
      by rewrite (lookup_total_alt counts), Hv.
    + rewrite (alter_lookup_Some _ _ _ _ Hk), alter_insert_eq.
      rewrite lookup_total_alt, lookup_insert_eq; simpl.
      by rewrite !insert_insert_eq.
  - rewrite lookup_total_alt, lookup_insert_eq; simpl.
    rewrite lookup_empty; simpl.
    rewrite !alter_insert_eq, lookup_total_alt, lookup_insert_eq; simpl.
    by rewrite !insert_insert_eq.
Qed.

Lemma tally_at_count_value (results : tally) key value f v :
  tally_at (count_value results key value) f v =
  if decide (key = f ∧ value = v)
  then Some (default 0 (tally_at results f v) + 1)
  else tally_at results f v.
Proof.
  rewrite count_value_insert. unfold tally_at; simpl.
  rewrite lookup_insert. destruct (decide (key = f)) as [<-|Hne]; simpl.
  - rewrite lookup_insert. destruct (decide (value = v)) as [<-|Hnv].
    + rewrite decide_True by done.
      by destruct (results !! key).
    + rewrite decide_False by tauto.
      destruct (results !! key); [done|]. simpl. by rewrite lookup_empty.
  - by rewrite decide_False by tauto.
Qed.

Lemma positive_tally_count_value (results : tally) key value :
  positive_tally results → positive_tally (count_value results key value).
Proof.
  intros Hpos f counts. rewrite count_value_insert; simpl.
  rewrite lookup_insert. destruct (decide (key = f)) as [<-|Hne].
  - intros [= <-]. split; [apply insert_non_empty|].
    intros v. rewrite lookup_insert.
    destruct (decide (value = v)); [intros [=]; lia|].
    destruct (results !! key) as [counts|] eqn:Hk; simpl.
    + by apply (Hpos _ _ Hk).
    + by rewrite lookup_empty.
  - apply Hpos.
Qed.

Lemma positive_tally_empty : positive_tally (∅ : tally).
Proof. intros f counts. by rewrite lookup_empty. Qed.

Lemma create_summary_items (data : list (list (gmap string V))) :
  create_summary data = foldl count_item ∅ (items (all_lines data)).
Proof.
  unfold create_summary, all_lines, items. generalize (∅ : tally).
  induction data as [|individual_data data IH]; intros results; [done|].
  simpl. rewrite IH, map_app, concat_app, foldl_app. f_equal.
  clear IH. revert results.
  induction individual_data as [|registry_data l IH]; intros results; [done|].
  simpl. rewrite foldl_app, <- IH. done.
Qed.

Lemma foldl_count_item (results : tally) (l : list (string * V)) :
  positive_tally results →
  positive_tally (foldl count_item results l) ∧
  ∀ f v, default 0 (tally_at (foldl count_item results l) f v) =
         default 0 (tally_at results f v)
         + length (filter (λ kv, kv = (f, v)) l).
Proof.
  revert results. induction l as [|[k x] l IH]; intros results Hpos.
  - split; [done|]. intros f v. simpl. lia.
  - simpl. destruct (IH (count_item results (k, x))) as [Hpos' Hcount].
    { by apply positive_tally_count_value. }
    split; [done|]. intros f v. rewrite Hcount. unfold count_item; simpl.
    rewrite tally_at_count_value, filter_cons.
    destruct (decide (k = f ∧ x = v)) as [[-> ->]|Hne].
    + rewrite decide_True by done. simpl. lia.
    + rewrite decide_False by (intros [= -> ->]; tauto). lia.
Qed.

Lemma length_filter_eq_NoDup {A} `{EqDecision A} (x : A) (l : list A) :
  NoDup l →
  length (filter (λ y, y = x) l) = if decide (x ∈ l) then 1 else 0.
Proof.
  induction 1 as [|y l Hy Hl IH]; [done|].
  rewrite filter_cons. destruct (decide (y = x)) as [->|Hne]; simpl.
  - rewrite IH, decide_False by done.
    rewrite decide_True by apply list_elem_of_here. done.
  - rewrite IH. destruct (decide (x ∈ l)) as [Hin|Hin].
    + rewrite decide_True by by apply list_elem_of_further. done.
    + rewrite decide_False; [done|].
      intros [->|?]%elem_of_cons; done.
Qed.

Lemma length_filter_items f v (lines : list (gmap string V)) :
  length (filter (λ kv, kv = (f, v)) (items lines)) = occurrences f v lines.
Proof.
  unfold items, occurrences. induction lines as [|line lines IH]; [done|].
  simpl. rewrite filter_app, length_app, IH, filter_cons.
  rewrite (length_filter_eq_NoDup _ _ (NoDup_map_to_list line)).
  destruct (decide (line !! f = Some v)) as [Hl|Hl].
  - rewrite decide_True by by apply elem_of_map_to_list. done.
  - rewrite decide_False by by rewrite elem_of_map_to_list. done.
Qed.

Lemma positive_tally_create_summary (data : list (list (gmap string V))) :
  positive_tally (create_summary data).
Proof.
  rewrite create_summary_items.
  by apply foldl_count_item, positive_tally_empty.
Qed.

Lemma count_create_summary (data : list (list (gmap string V))) f v :
  default 0 (tally_at (create_summary data) f v) =
  occurrences f v (all_lines data).
Proof.
  rewrite create_summary_items.
  destruct (foldl_count_item ∅ (items (all_lines data)) positive_tally_empty)
    as [_ ->].
  unfold tally_at at 1. rewrite lookup_empty; simpl.
  apply length_filter_items.
Qed.

(** Two positive tallies with the same counts are the same mapping. *)
Lemma positive_tally_ext (r1 r2 : tally) :
  positive_tally r1 → positive_tally r2 →
  (∀ f v, default 0 (tally_at r1 f v) = default 0 (tally_at r2 f v)) →
  r1 = r2.
Proof.
  assert (Hhalf : ∀ r1 r2 : tally, positive_tally r1 → positive_tally r2 →
    (∀ f v, default 0 (tally_at r1 f v) = default 0 (tally_at r2 f v)) →
    ∀ f c1, r1 !! f = Some c1 → r2 !! f = Some c1).
  { clear. intros r1 r2 H1 H2 Heq f c1 Hf1.
    destruct (H1 _ _ Hf1) as [Hne Hnz].
    destruct (r2 !! f) as [c2|] eqn:Hf2.
    - f_equal. apply map_eq; intros v. specialize (Heq f v).
      unfold tally_at in Heq. rewrite Hf1, Hf2 in Heq; simpl in Heq.
      destruct (H2 _ _ Hf2) as [_ Hnz2].
      specialize (Hnz v). specialize (Hnz2 v).
      destruct (c1 !! v) as [[|n1]|], (c2 !! v) as [[|n2]|];
        simpl in Heq; congruence.
    - exfalso. apply map_choose in Hne as (v & n & Hv).
      specialize (Heq f v). unfold tally_at in Heq.
      rewrite Hf1, Hf2 in Heq; simpl in Heq. rewrite Hv in Heq; simpl in Heq.
      subst n. by apply (Hnz v). }
  intros H1 H2 Heq. apply map_eq; intros f.
  destruct (r1 !! f) as [c1|] eqn:Hf1.
  - symmetry. by apply (Hhalf r1 r2).
  - destruct (r2 !! f) as [c2|] eqn:Hf2; [|done].
    symmetry in Heq.
    pose proof (Hhalf r2 r1 H2 H1 (λ f v, eq_sym (eq_sym (Heq f v))) f c2 Hf2).
    congruence.
Qed.

Lemma occurrences_Permutation f v (l1 l2 : list (gmap string V)) :
  l1 ≡ₚ l2 → occurrences f v l1 = occurrences f v l2.
Proof. intros Hp. unfold occurrences. by rewrite Hp. Qed.

Lemma all_lines_Permutation (data data1 data' : list (list (gmap string V))) :
  data ≡ₚ data1 → Forall2 (≡ₚ) data1 data' →
  all_lines data ≡ₚ all_lines data'.
Proof.
  unfold all_lines. intros Hout Hin. transitivity (concat data1).
  - clear Hin. induction Hout; simpl.
    + done.
    + by f_equiv.
    + rewrite !app_assoc. f_equiv. apply Permutation_app_comm.
    + etransitivity; eauto.
  - clear Hout. induction Hin; simpl; [done|]. by f_equiv.
Qed.

End SummarizeProperties.

(** C8.  The tally that [create_summary] returns holds, for a field and a
    value, the number of lines in which the field has that value, and holds
    nothing for a pair that occurs in no line.  On the input of the third
    scenario it is [{"sex": {"F": 2, "M": 1}}]. *)
Theorem create_summary_counts :
  (∀ (V : Type) `(Countable V) (data : list (list (gmap string V)))
     (f : string) (v : V),
     tally_at (create_summary data) f v =
     let n := occurrences f v (all_lines data) in
     if decide (n = 0) then None else Some n)
  ∧ create_summary Sample.data = {[ "sex" := {[ "F" := 2; "M" := 1 ]} ]}.
Proof.
  split; [|by vm_compute].
  intros V ? ? data f v. simpl.
  pose proof (count_create_summary data f v) as Hcount.
  pose proof (positive_tally_create_summary data) as Hpos.
  unfold tally_at in *.
  destruct (create_summary data !! f) as [counts|] eqn:Hf; simpl in *.
  - destruct (Hpos _ _ Hf) as [_ Hnz]. specialize (Hnz v).
    destruct (counts !! v) as [n|]; simpl in *; subst.
    + rewrite decide_False; [done | congruence].
    + by rewrite decide_True.
  - by rewrite decide_True.
Qed.

(** C9.  Reordering the individuals, and reordering the lines of each
    individual, does not change the tally. *)
Theorem create_summary_order_independent {V : Type} `{Countable V}
    (data data1 data' : list (list (gmap string V))) :
  data ≡ₚ data1 →
  Forall2 (≡ₚ) data1 data' →
  create_summary data' = create_summary data.
Proof.
  intros Hout Hin. apply positive_tally_ext.
  - apply positive_tally_create_summary.
  - apply positive_tally_create_summary.
  - intros f v. rewrite !count_create_summary.
    symmetry. apply occurrences_Permutation.
    by apply (all_lines_Permutation data data1 data').
Qed.

Lemma create_summary_order_independent_witness :
  Sample.cohort ≡ₚ Sample.cohort_swapped ∧
  Forall2 (≡ₚ) Sample.cohort_swapped Sample.cohort_reordered ∧
  create_summary Sample.cohort_reordered = create_summary Sample.cohort.
Proof.
  assert (Hout : Sample.cohort ≡ₚ Sample.cohort_swapped) by apply perm_swap.
  assert (Hin : Forall2 (≡ₚ) Sample.cohort_swapped Sample.cohort_reordered).
  { constructor; [reflexivity|].
    constructor; [apply perm_swap | constructor]. }
  split; [exact Hout|]. split; [exact Hin|].
  exact (create_summary_order_independent _ _ _ Hout Hin).
Defined.

(** ** The handler on the sample inputs *)

Lemma handle_signed_queries_abort_witness :
  Forall (λ kv, Sample.verify kv.2 = true ∧
                is_Some (signed_query_store Sample.st !! kv.1))
         [("q1", JStr "good")] ∧
  Sample.verify (JStr "forged") = false ∧
  handle_signed_queries Sample.verify "hunt" Sample.batch Sample.st =
  (Raised (ValueError "Signature could not be verified for query_id %s" "q2"),
   with_store Sample.st
     (merged "hunt" [("q1", JStr "good")] (signed_query_store Sample.st))).
Proof.
  assert (Hpre : Forall (λ kv, Sample.verify kv.2 = true ∧
                   is_Some (signed_query_store Sample.st !! kv.1))
                   [("q1", JStr "good")]).
  { constructor; [|constructor].
    split; [reflexivity | eexists; reflexivity]. }
  assert (Hbad : Sample.verify (JStr "forged") = false) by reflexivity.
  split; [exact Hpre|]. split; [exact Hbad|].
  exact (handle_signed_queries_abort Sample.verify "hunt"
           [("q1", JStr "good")] "q2" (JStr "forged") [] Sample.st Hpre Hbad).
Defined.

(** C2 as stated fails: the second entry of the sample batch does not
    verify, the batch is aborted, and yet the first entry has been merged;
    the store is not what it was. *)
Lemma handle_signed_queries_partial_merge :
  Exists (λ kv, Sample.verify kv.2 = false) Sample.batch ∧
  signed_query_store
    (handle_signed_queries Sample.verify "hunt" Sample.batch Sample.st).2
    !! "q1" = Some (Query Sample.q1 ["hunt"] (JStr "good")) ∧
  ((handle_signed_queries Sample.verify "hunt" Sample.batch Sample.st).2
    ≠ Sample.st).
Proof.
  split; [|split].
  - apply Exists_cons_tl, Exists_cons_hd. reflexivity.
  - vm_compute. reflexivity.
  - intros Heq.
    apply (f_equal (λ st, signed_by <$> signed_query_store st !! "q1")) in Heq.
    vm_compute in Heq. discriminate.
Qed.

Lemma handle_unknown_source_witness :
  ("mallory" ∉ valid_sources) ∧
  handle Sample.sign Sample.verify Sample.dumps Sample.RECIPIENTS
         (Some "mallory") [Sample.q1] Sample.batch Sample.st
  = (Ok tt, Sample.st).
Proof.
  assert (Hnot : "mallory" ∉ valid_sources).
  { apply (bool_decide_unpack _). vm_compute. exact I. }
  split; [exact Hnot|].
  exact (handle_unknown_source Sample.sign Sample.verify Sample.dumps
           Sample.RECIPIENTS "mallory" [Sample.q1] Sample.batch Sample.st Hnot).
Defined.

(** * Further properties of [query.py] *)

Section FetchProperties.

Variable sign : string → string.
Variable dumps : json → string.

Lemma fetch_query_live q st :
  get_truthy (status q) = false →
  fetch_query sign dumps q st =
  (Ok tt,
   with_store st
     match signed_query_store st !! id q with
     | Some _ => signed_query_store st
     | None => <[id q := first_seen sign dumps q]> (signed_query_store st)
     end).
Proof.
  intros Hs. unfold fetch_query. py_unfold. rewrite Hs. simpl.
  destruct st as [s tr]; simpl. by destruct (s !! id q).
Qed.

Lemma union_insert_absorb (s m : gmap string query) k r r' :
  s !! k = Some r → s ∪ <[k := r']> m = s ∪ m.
Proof.
  intros Hk. apply map_eq; intros j. rewrite !lookup_union.
  destruct (decide (k = j)) as [<-|Hne].
  - rewrite Hk, lookup_insert_eq. by destruct (m !! k).
  - by rewrite lookup_insert_ne.
Qed.

Lemma for_each_fetch_live feed st :
  live_feed feed →
  for_each feed (fetch_query sign dumps) st =
  (Ok tt, with_store st (signed_query_store st ∪ feed_records sign dumps feed)).
Proof.
  unfold live_feed, feed_records. revert st.
  induction feed as [|q feed IH]; intros st Hlive.
  - simpl. rewrite map_union_empty. by rewrite with_store_id.
  - apply Forall_cons in Hlive as [Hq Hlive].
    rewrite for_each_cons, (fetch_query_live _ _ Hq), (IH _ Hlive).
    f_equal. unfold with_store; simpl. f_equal.
    destruct (signed_query_store st !! id q) as [r|] eqn:Hk.
    + by rewrite (union_insert_absorb _ _ _ _ _ Hk).
    + by rewrite <- insert_union_l, <- insert_union_r.
Qed.

Lemma fetch_queries_live feed registry_id st :
  live_feed feed →
  fetch_queries sign dumps feed registry_id st =
  (Ok tt,
   State (signed_query_store st ∪ feed_records sign dumps feed)
         (trace st ++ [EvFetchFeed])).
Proof.
  intros Hlive. unfold fetch_queries.
  change ((emit EvFetchFeed;; for_each feed (fetch_query sign dumps)) st)
    with (for_each feed (fetch_query sign dumps)
            (State (signed_query_store st) (trace st ++ [EvFetchFeed]))).
  by rewrite (for_each_fetch_live _ _ Hlive).
Qed.

(** X1.  A feed without any true [status] is always ingested to the end:
    the feed is fetched once, the records already in the store stay as they
    are, and every id that is new gets the first-seen record of the first
    feed entry that carries it. *)
Theorem fetch_queries_live_feed feed registry_id st :
  live_feed feed →
  fetch_queries sign dumps feed registry_id st =
  (Ok tt,
   {| signed_query_store :=
        signed_query_store st ∪ feed_records sign dumps feed;
      trace := trace st ++ [EvFetchFeed] |}).
Proof. apply fetch_queries_live. Qed.

(** X2.  Fetching the same feed (without any true [status]) a second time,
    for whichever registry, leaves the store as the first fetch left it. *)
Theorem fetch_queries_twice feed r1 r2 st :
  live_feed feed →
  signed_query_store
    (fetch_queries sign dumps feed r2
       (fetch_queries sign dumps feed r1 st).2).2
  = signed_query_store (fetch_queries sign dumps feed r1 st).2.
Proof.
  intros Hlive. rewrite !(fetch_queries_live _ _ _ Hlive). simpl.
  rewrite <- (assoc_L (∪)). f_equal. apply (idemp_L (∪)).
Qed.


Lemma fetch_queries_unfold feed registry_id st :
  fetch_queries sign dumps feed registry_id st =
  for_each feed (fetch_query sign dumps)
    (State (signed_query_store st) (trace st ++ [EvFetchFeed])).
Proof. reflexivity. Qed.

(** What one feed entry does, whatever its [status]. *)
Lemma fetch_query_run q st :
  fetch_query sign dumps q st =
  if get_truthy (status q) then
    match signed_query_store st !! id q with
    | Some _ => (Ok tt, with_store st (delete (id q) (signed_query_store st)))
    | None => (Raised (KeyError (id q)), st)
    end
  else
    (Ok tt,
     with_store st
       match signed_query_store st !! id q with
       | Some _ => signed_query_store st
       | None => <[id q := first_seen sign dumps q]> (signed_query_store st)
       end).
Proof.
  destruct (get_truthy (status q)) eqn:Hs.
  - unfold fetch_query. py_unfold. rewrite Hs. simpl.
    destruct st as [s tr]; simpl. by destruct (s !! id q).
  - by apply fetch_query_live.
Qed.

Lemma fetch_query_lookup_other q st k :
  id q ≠ k →
  signed_query_store (fetch_query sign dumps q st).2 !! k =
  signed_query_store st !! k.
Proof.
  intros Hne. rewrite fetch_query_run.
  destruct (get_truthy (status q)), (signed_query_store st !! id q);
    simpl; try done.
  - by rewrite lookup_delete_ne.
  - by rewrite lookup_insert_ne.
Qed.

Lemma fetch_query_trace q st :
  trace (fetch_query sign dumps q st).2 = trace st.
Proof.
  rewrite fetch_query_run.
  by destruct (get_truthy (status q)), (signed_query_store st !! id q).
Qed.

Lemma for_each_fetch_lookup_other feed st k :
  k ∉ id <$> feed →
  signed_query_store (for_each feed (fetch_query sign dumps) st).2 !! k =
  signed_query_store st !! k.
Proof.
  revert st. induction feed as [|q feed IH]; intros st Hk; [done|].
  rewrite fmap_cons in Hk. apply not_elem_of_cons in Hk as [Hne Hk].
  rewrite for_each_cons.
  pose proof (fetch_query_lookup_other q st k (not_eq_sym Hne)) as Hstep.
  destruct (fetch_query sign dumps q st) as [[[]|e] st1]; simpl in *.
  - by rewrite IH.
  - done.
Qed.

Lemma for_each_fetch_trace feed st :
  trace (for_each feed (fetch_query sign dumps) st).2 = trace st.
Proof.
  revert st. induction feed as [|q feed IH]; intros st; [done|].
  rewrite for_each_cons. pose proof (fetch_query_trace q st) as Hstep.
  destruct (fetch_query sign dumps q st) as [[[]|e] st1]; simpl in *.
  - by rewrite IH.
  - done.
Qed.


(** After a fetch that came to its end, no id that the feed retires is in
    the store, when the ids of the feed are distinct. *)
Lemma for_each_fetch_purged feed st st' :
  NoDup (id <$> feed) →
  for_each feed (fetch_query sign dumps) st = (Ok tt, st') →
  ∀ q, q ∈ feed → get_truthy (status q) = true →
       signed_query_store st' !! id q = None.
Proof.
  revert st. induction feed as [|q0 feed IH]; intros st Hnd Hrun q Hq Hs.
  { by apply elem_of_nil in Hq. }
  rewrite fmap_cons in Hnd. apply NoDup_cons in Hnd as [Hfresh Hnd].
  rewrite for_each_cons in Hrun.
  destruct (fetch_query sign dumps q0 st) as [[[]|e] st1] eqn:Hstep;
    [|done].
  apply elem_of_cons in Hq as [->|Hq]; [|by eapply IH].
  pose proof (for_each_fetch_lookup_other feed st1 (id q0) Hfresh) as Hkeep.
  rewrite Hrun in Hkeep; simpl in Hkeep. rewrite Hkeep.
  rewrite fetch_query_run, Hs in Hstep.
  destruct (signed_query_store st !! id q0); [|done].
  injection Hstep as <-. simpl. apply lookup_delete_eq.
Qed.

Lemma for_each_fetch_absent_raises feed st :
  NoDup (id <$> feed) →
  Exists (λ q, get_truthy (status q) = true) feed →
  (∀ q, q ∈ feed → get_truthy (status q) = true →
        signed_query_store st !! id q = None) →
  ∃ q, q ∈ feed ∧ get_truthy (status q) = true ∧
       (for_each feed (fetch_query sign dumps) st).1 = Raised (KeyError (id q)).
Proof.
  revert st. induction feed as [|q0 feed IH]; intros st Hnd Hex Habs.
  { by apply Exists_nil in Hex. }
  rewrite fmap_cons in Hnd. apply NoDup_cons in Hnd as [Hfresh Hnd].
  rewrite for_each_cons, fetch_query_run.
  destruct (get_truthy (status q0)) eqn:Hs.
  - exists q0. rewrite (Habs q0) by (by rewrite ?elem_of_cons; auto).
    by rewrite elem_of_cons; auto.
  - apply Exists_cons in Hex as [Hex|Hex]; [congruence|].
    set (st1 := with_store st _).
    destruct (IH st1 Hnd Hex) as (q & Hq & Hsq & Hrun).
    + intros q Hq Hsq.
      assert (id q0 ≠ id q) as Hne.
      { intros Heq. apply Hfresh. rewrite Heq. by apply list_elem_of_fmap_2. }
      pose proof (fetch_query_lookup_other q0 st (id q) Hne) as Hstep.
      rewrite fetch_query_run, Hs in Hstep. simpl in Hstep.
      subst st1. simpl. rewrite Hstep. apply Habs; [|done].
      by rewrite elem_of_cons; auto.
    + exists q. by rewrite elem_of_cons; auto.
Qed.


(** X5.  A feed with distinct ids that retires a query (has an entry with a
    true [status]) is ingested to the end at most once: when a fetch of it
    came to its end, the next fetch of the same feed raises the [KeyError]
    of a retired id. *)
Theorem fetch_queries_retiring_feed_once feed r1 r2 st :
  NoDup (id <$> feed) →
  Exists (λ q, get_truthy (status q) = true) feed →
  (fetch_queries sign dumps feed r1 st).1 = Ok tt →
  ∃ q, q ∈ feed ∧ get_truthy (status q) = true ∧
       (fetch_queries sign dumps feed r2
          (fetch_queries sign dumps feed r1 st).2).1
       = Raised (KeyError (id q)).
Proof.
  intros Hnd Hex Hok. rewrite !fetch_queries_unfold in *.
  destruct (for_each feed (fetch_query sign dumps) _) as [res st1] eqn:Hrun
    in Hok |- *.
  simpl in Hok. subst res. simpl.
  apply for_each_fetch_absent_raises; [done|done|].
  simpl. by apply (for_each_fetch_purged _ _ _ Hnd Hrun).
Qed.

End FetchProperties.

Section HandlerProperties.

Variable sign : string → string.
Variable verify : json → bool.
Variable dumps : json → string.
Variable RECIPIENTS : gmap string string.

(** A property of the state that every pass of a loop body keeps, however
    the pass ends, holds after the loop, however the loop ends. *)
Lemma for_each_preserves {A} (I : state → Prop) (body : A → M unit) l st :
  (∀ x st, x ∈ l → I st → I (body x st).2) → I st → I (for_each l body st).2.
Proof.
  revert st. induction l as [|x l IH]; intros st Hbody HI; [done|].
  rewrite for_each_cons.
  pose proof (Hbody x st (list_elem_of_here _ _) HI) as Hstep.
  destruct (body x st) as [[[]|e] st1]; simpl in *; [|done].
  apply IH; [|done]. intros y st' Hy. apply Hbody. by apply list_elem_of_further.
Qed.

(** What one returned query does. *)
Lemma handle_signed_query_run source_id query_id query st :
  handle_signed_query verify source_id (query_id, query) st =
  if verify query then
    match signed_query_store st !! query_id with
    | Some r =>
        (Ok tt, with_store st (<[query_id := signed_as source_id query r]>
                                 (signed_query_store st)))
    | None => (Raised (KeyError query_id), st)
    end
  else
    (Raised (ValueError "Signature could not be verified for query_id %s"
                        query_id), st).
Proof.
  unfold handle_signed_query. destruct (verify query); simpl; [|done].
  unfold merge_signed. py_unfold. destruct st as [s tr]; simpl.
  destruct (s !! query_id) as [r|] eqn:Hr; simpl; [|done].
  rewrite lookup_insert_eq; simpl. by rewrite insert_insert_eq.
Qed.

(** The handler, step by step, for a valid source. *)
Lemma handle_run source_id feed batch st :
  source_id ∈ valid_sources →
  handle sign verify dumps RECIPIENTS (Some source_id) feed batch st =
  match fetch_queries sign dumps feed source_id st with
  | (Raised e, st1) => (Raised e, st1)
  | (Ok _, st1) =>
      match RECIPIENTS !! source_id with
      | None => (Raised (KeyError source_id), st1)
      | Some key =>
          if str_truthy key then
            handle_signed_queries verify source_id batch
              (State (signed_query_store st1)
                     (trace st1 ++
                      [EvSend (filter_queries source_id
                                 (signed_query_store st1)) key]))
          else
            (Raised (Exception "Could not find encryption config for %s"
                               source_id), st1)
      end
  end.
Proof.
  intros Hvalid. unfold handle.
  rewrite (bool_decide_eq_true_2 _ Hvalid), andb_true_r.
  rewrite bool_decide_eq_true_2 by eauto.
  unfold recipient. py_unfold.
  destruct (fetch_queries sign dumps feed source_id st) as [[[]|e] st1];
    [|done].
  destruct (RECIPIENTS !! source_id) as [key|]; [|done].
  by destruct (str_truthy key).
Qed.

Lemma handle_signed_query_trace source_id kv st :
  trace (handle_signed_query verify source_id kv st).2 = trace st.
Proof.
  destruct kv as [k q]. rewrite handle_signed_query_run.
  by destruct (verify q), (signed_query_store st !! k).
Qed.

Lemma handle_signed_queries_trace source_id batch st :
  trace (handle_signed_queries verify source_id batch st).2 = trace st.
Proof.
  apply (for_each_preserves (λ st', trace st' = trace st)); [|done].
  intros kv st' _ <-. apply handle_signed_query_trace.
Qed.

Lemma handle_signed_query_lookup_other source_id kv st k :
  kv.1 ≠ k →
  signed_query_store (handle_signed_query verify source_id kv st).2 !! k =
  signed_query_store st !! k.
Proof.
  destruct kv as [k' q]. intros Hne; simpl in Hne.
  rewrite handle_signed_query_run.
  destruct (verify q), (signed_query_store st !! k'); simpl; try done.
  by rewrite lookup_insert_ne.
Qed.

Lemma handle_signed_queries_lookup_other source_id batch st k :
  k ∉ batch.*1 →
  signed_query_store (handle_signed_queries verify source_id batch st).2 !! k
  = signed_query_store st !! k.
Proof.
  intros Hk.
  apply (for_each_preserves
           (λ st', signed_query_store st' !! k = signed_query_store st !! k));
    [|done].
  intros kv st' Hkv <-. apply handle_signed_query_lookup_other.
  intros <-. apply Hk. by apply list_elem_of_fmap_2.
Qed.

(** A property of the store that ingesting a feed entry keeps, and that
    merging a returned query for a valid source keeps, is kept by the
    handler, however it ends. *)
Lemma handle_preserves (I : gmap string query → Prop) data feed batch st :
  (∀ q st, q ∈ feed → I (signed_query_store st) →
           I (signed_query_store (fetch_query sign dumps q st).2)) →
  (∀ source_id kv st, source_id ∈ valid_sources → kv ∈ batch →
     I (signed_query_store st) →
     I (signed_query_store (handle_signed_query verify source_id kv st).2)) →
  I (signed_query_store st) →
  I (signed_query_store
       (handle sign verify dumps RECIPIENTS data feed batch st).2).
Proof.
  intros Hfetch Hmerge HI. destruct data as [source_id|]; [|done].
  destruct (decide (source_id ∈ valid_sources)) as [Hvalid|Hnot].
  - rewrite (handle_run _ _ _ _ Hvalid), fetch_queries_unfold.
    assert (I (signed_query_store
                 (for_each feed (fetch_query sign dumps)
                    (State (signed_query_store st)
                           (trace st ++ [EvFetchFeed]))).2)) as HI1.
    { apply (for_each_preserves (λ st', I (signed_query_store st')));
        [|done]. intros q st' ?. by apply Hfetch. }
    destruct (for_each feed (fetch_query sign dumps) _) as [[[]|e] st1];
      [|done].
    destruct (RECIPIENTS !! source_id) as [key|]; [|done].
    destruct (str_truthy key); [|done].
    apply (for_each_preserves (λ st', I (signed_query_store st')));
      [|done]. intros kv st' ?. by apply Hmerge.
  - unfold handle.
    by rewrite (bool_decide_eq_false_2 _ Hnot), andb_false_r.
Qed.

(** X6.  The handler touches no record but those whose id the feed or the
    returned batch names: any other id is in the store afterwards exactly
    as it was before, however the handler ends. *)
Theorem handle_touches_named_ids data feed batch st k :
  k ∉ id <$> feed →
  k ∉ batch.*1 →
  signed_query_store
    (handle sign verify dumps RECIPIENTS data feed batch st).2 !! k
  = signed_query_store st !! k.
Proof.
  intros Hfeed Hbatch.
  apply (handle_preserves (λ s, s !! k = signed_query_store st !! k));
    [| |done].
  - intros q st' Hq <-. apply fetch_query_lookup_other.
    intros <-. apply Hfeed. by apply list_elem_of_fmap_2.
  - intros source_id kv st' _ Hkv <-. apply handle_signed_query_lookup_other.
    intros <-. apply Hbatch. by apply list_elem_of_fmap_2.
Qed.

(** X7.  The handler keeps the store keyed by id and free of retired
    queries: if every record is stored under its own id and has no true
    [status] before, the same holds afterwards, however the handler ends. *)
Theorem handle_keeps_keyed_by_id data feed batch st :
  keyed_by_id (signed_query_store st) →
  keyed_by_id (signed_query_store
                 (handle sign verify dumps RECIPIENTS data feed batch st).2).
Proof.
  apply handle_preserves.
  - intros q st' _ HI k r. rewrite fetch_query_run.
    destruct (get_truthy (status q)) eqn:Hs,
             (signed_query_store st' !! id q) eqn:Hq; simpl.
    + intros [_ Hr]%lookup_delete_Some. by apply HI.
    + apply HI.
    + apply HI.
    + rewrite lookup_insert. destruct (decide (id q = k)) as [<-|].
      * by intros [= <-].
      * apply HI.
  - intros source_id [k' q] st' _ _ HI k r. rewrite handle_signed_query_run.
    destruct (verify q), (signed_query_store st' !! k') as [r'|] eqn:Hk';
      simpl; try apply HI.
    rewrite lookup_insert. destruct (decide (k' = k)) as [<-|].
    + intros [= <-]. simpl. by apply HI.
    + apply HI.
Qed.

(** X8.  Only valid sources get into [signed_by]: if every [signed_by] of
    the store lists valid sources only, the same holds after the handler,
    whoever the requester claims to be and however the handler ends. *)
Theorem handle_keeps_signed_by_valid data feed batch st :
  signed_by_valid (signed_query_store st) →
  signed_by_valid
    (signed_query_store
       (handle sign verify dumps RECIPIENTS data feed batch st).2).
Proof.
  apply handle_preserves.
  - intros q st' _ HI k r. rewrite fetch_query_run.
    destruct (get_truthy (status q)) eqn:Hs,
             (signed_query_store st' !! id q) eqn:Hq; simpl.
    + intros [_ Hr]%lookup_delete_Some. by eapply HI.
    + apply HI.
    + apply HI.
    + rewrite lookup_insert. destruct (decide (id q = k)) as [<-|].
      * intros [= <-]. simpl. constructor.
      * apply HI.
  - intros source_id [k' q] st' Hvalid _ HI k r.
    rewrite handle_signed_query_run.
    destruct (verify q), (signed_query_store st' !! k') as [r'|] eqn:Hk';
      simpl; try apply HI.
    rewrite lookup_insert. destruct (decide (k' = k)) as [<-|].
    + intros [= <-]. simpl. apply Forall_app. split; [by eapply HI|].
      by constructor.
    + apply HI.
Qed.

(** X9.  The handler from end to end, when nothing goes wrong: for a valid
    source with a recipient key, a feed without any true [status], and a
    returned batch whose entries all verify and name records that the
    store holds after the fetch, the handler fetches the feed, sends the
    registry its filtered records as they are before the merge, and merges
    the whole batch. *)
Theorem handle_round source_id key feed batch st :
  source_id ∈ valid_sources →
  RECIPIENTS !! source_id = Some key →
  key ≠ "" →
  live_feed feed →
  Forall (λ kv, verify kv.2 = true ∧
                is_Some ((signed_query_store st ∪
                          feed_records sign dumps feed) !! kv.1)) batch →
  handle sign verify dumps RECIPIENTS (Some source_id) feed batch st =
  let fetched := signed_query_store st ∪ feed_records sign dumps feed in
  (Ok tt,
   {| signed_query_store := merged source_id batch fetched;
      trace := trace st ++
               [EvFetchFeed; EvSend (filter_queries source_id fetched) key] |}).
Proof.
  intros Hvalid Hkey Hne Hlive Hall.
  rewrite (handle_run _ _ _ _ Hvalid), (fetch_queries_live _ _ _ _ _ Hlive).
  rewrite Hkey. unfold str_truthy.
  rewrite (proj2 (String.eqb_neq key "")) by done. simpl.
  rewrite (handle_signed_queries_all verify source_id batch); [|done].
  unfold with_store; simpl. by rewrite <- app_assoc.
Qed.


(** X11.  What the handler lets out, on any input and however it ends:
    nothing at all, or the fetch of the feed alone, or the fetch followed
    by one frame.  A frame goes to a valid source only, under the
    non-empty key configured for it, and holds only records that list this
    source among their sources. *)
Theorem handle_trace data feed batch st :
  ∃ events,
    trace (handle sign verify dumps RECIPIENTS data feed batch st).2 =
      trace st ++ events ∧
    (events = [] ∨
     events = [EvFetchFeed] ∨
     ∃ source_id queries key,
       events = [EvFetchFeed; EvSend queries key] ∧
       data = Some source_id ∧
       source_id ∈ valid_sources ∧
       RECIPIENTS !! source_id = Some key ∧
       key ≠ "" ∧
       Forall (λ r, source_id ∈ sources (entry r)) queries).
Proof.
  destruct data as [source_id|]; [|exists []; by rewrite app_nil_r; auto].
  destruct (decide (source_id ∈ valid_sources)) as [Hvalid|Hnot].
  2: { exists []. unfold handle.
       rewrite (bool_decide_eq_false_2 _ Hnot), andb_false_r.
       by rewrite app_nil_r; auto. }
  rewrite (handle_run _ _ _ _ Hvalid), fetch_queries_unfold.
  pose proof (for_each_fetch_trace sign dumps feed
                (State (signed_query_store st) (trace st ++ [EvFetchFeed])))
    as Htr.
  destruct (for_each feed (fetch_query sign dumps) _) as [[[]|e] st1];
    simpl in Htr; [|exists [EvFetchFeed]; by auto].
  destruct (RECIPIENTS !! source_id) as [key|] eqn:Hkey;
    [|exists [EvFetchFeed]; by auto].
  destruct (str_truthy key) eqn:Htruthy; [|exists [EvFetchFeed]; by auto].
  exists [EvFetchFeed;
          EvSend (filter_queries source_id (signed_query_store st1)) key].
  rewrite handle_signed_queries_trace. simpl. rewrite Htr, <- app_assoc.
  split; [done|]. right; right. eexists _, _, _. split_and!; try done.
  - intros ->. done.
  - apply Forall_forall. intros r Hr.
    unfold filter_queries in Hr. apply list_elem_of_fmap in Hr as ([k r'] & -> & Hr).
    by apply list_elem_of_filter in Hr as [? _].
Qed.

(** X12.  The loop over the returned batch never adds or removes a record
    and never changes the feed part of one; all it does to [signed_by] is
    to append the requesting source, however the loop ends. *)
Theorem handle_signed_queries_only_appends source_id batch st k :
  match signed_query_store st !! k with
  | None =>
      signed_query_store
        (handle_signed_queries verify source_id batch st).2 !! k = None
  | Some r =>
      ∃ r' n,
        signed_query_store
          (handle_signed_queries verify source_id batch st).2 !! k = Some r' ∧
        entry r' = entry r ∧
        signed_by r' = signed_by r ++ replicate n source_id
  end.
Proof.
  apply (for_each_preserves (λ st',
    match signed_query_store st !! k with
    | None => signed_query_store st' !! k = None
    | Some r =>
        ∃ r' n, signed_query_store st' !! k = Some r' ∧
                entry r' = entry r ∧
                signed_by r' = signed_by r ++ replicate n source_id
    end)).
  - intros [k' q] st' _ HI. rewrite handle_signed_query_run.
    destruct (verify q), (signed_query_store st' !! k') as [r1|] eqn:Hk';
      simpl; try apply HI.
    rewrite lookup_insert. destruct (decide (k' = k)) as [<-|]; [|apply HI].
    destruct (signed_query_store st !! k') as [r|].
    + destruct HI as (r' & n & Hr' & He & Hs). rewrite Hk' in Hr'.
      injection Hr' as <-. exists (signed_as source_id q r1), (S n).
      split_and!; [done|done|]. simpl. rewrite Hs, <- app_assoc. f_equal.
      symmetry. apply replicate_cons_app.
    + congruence.
  - destruct (signed_query_store st !! k) as [r|]; [|done].
    exists r, 0. simpl. by rewrite app_nil_r.
Qed.

Lemma merged_lookup_other source_id batch (s : gmap string query) k :
  k ∉ batch.*1 → merged source_id batch s !! k = s !! k.
Proof.
  revert s. induction batch as [|[k' q] batch IH]; intros s Hk; [done|].
  rewrite fmap_cons in Hk. apply not_elem_of_cons in Hk as [Hne Hk].
  simpl in *. rewrite IH by done. by rewrite lookup_alter_ne.
Qed.

(** X13.  A returned batch with distinct ids whose entries all verify and
    name records of the store is merged entry by entry: each record named
    in the batch gets the source appended once to [signed_by] and the
    returned query as [signed]; every other record stays as it is. *)
Theorem handle_signed_queries_verified_batch source_id batch st :
  NoDup batch.*1 →
  Forall (λ kv, verify kv.2 = true ∧
                is_Some (signed_query_store st !! kv.1)) batch →
  ∃ st',
    handle_signed_queries verify source_id batch st = (Ok tt, st') ∧
    trace st' = trace st ∧
    (∀ k q, (k, q) ∈ batch →
       signed_query_store st' !! k =
       (λ r, {| entry := entry r;
                signed_by := signed_by r ++ [source_id];
                signed := q |}) <$> signed_query_store st !! k) ∧
    (∀ k, k ∉ batch.*1 →
       signed_query_store st' !! k = signed_query_store st !! k).
Proof.
  intros Hnd Hall. eexists. split; [by apply handle_signed_queries_all|].
  simpl. split; [done|]. split; [|intros k; apply merged_lookup_other].
  clear Hall. generalize (signed_query_store st) as s.
  induction batch as [|[k' q'] batch IH]; intros s k q Hin.
  { by apply elem_of_nil in Hin. }
  rewrite fmap_cons in Hnd. apply NoDup_cons in Hnd as [Hfresh Hnd].
  simpl in *. apply elem_of_cons in Hin as [[= -> ->]|Hin].
  - rewrite merged_lookup_other by done. by rewrite lookup_alter_eq.
  - rewrite (IH Hnd _ _ _ Hin). rewrite lookup_alter_ne; [done|].
    intros ->. apply Hfresh. by apply (list_elem_of_fmap_2 fst _ (k, q)).
Qed.

End HandlerProperties.

(** * Further properties of [summarize.py] *)

Section TallyProperties.

Context {V : Type} `{Countable V}.

Local Abbreviation tally := (gmap string (gmap V nat)).

Lemma occurrences_app f (v : V) l1 l2 :
  occurrences f v (l1 ++ l2) = occurrences f v l1 + occurrences f v l2.
Proof. unfold occurrences. by rewrite filter_app, length_app. Qed.

Lemma occurrences_ne_0 f (v : V) lines :
  occurrences f v lines ≠ 0 ↔ ∃ line, line ∈ lines ∧ line !! f = Some v.
Proof.
  unfold occurrences. split.
  - intros Hne. destruct (filter _ lines) as [|line l] eqn:Hf; [done|].
    exists line. apply and_comm, (list_elem_of_filter (λ line, line !! f = Some v)).
    rewrite Hf. apply list_elem_of_here.
  - intros (line & Hin & Hline) Hlen. apply nil_length_inv in Hlen.
    by apply (filter_nil_not_elem_of _ _ line Hlen Hline).
Qed.

Lemma create_summary_lookup_is_Some (data : list (list (gmap string V))) f :
  is_Some (create_summary data !! f) ↔
  ∃ line, line ∈ all_lines data ∧ is_Some (line !! f).
Proof.
  split.
  - intros [counts Hf].
    destruct (positive_tally_create_summary data f counts Hf) as [Hne Hnz].
    apply map_choose in Hne as (v & n & Hv).
    pose proof (count_create_summary data f v) as Hcount.
    unfold tally_at in Hcount. rewrite Hf in Hcount; simpl in Hcount.
    rewrite Hv in Hcount; simpl in Hcount.
    assert (occurrences f v (all_lines data) ≠ 0) as Hocc.
    { rewrite <- Hcount. intros ->. by apply (Hnz v). }
    apply occurrences_ne_0 in Hocc as (line & ? & Hline).
    exists line. by rewrite Hline; eauto.
  - intros (line & Hin & [v Hv]).
    assert (occurrences f v (all_lines data) ≠ 0) as Hocc.
    { apply occurrences_ne_0. eauto. }
    rewrite <- count_create_summary in Hocc. unfold tally_at in Hocc.
    destruct (create_summary data !! f); [eauto | done].
Qed.

(** X14.  The fields of the summary are the fields of the lines: a field
    is a key of the summary exactly when some line of some individual has
    it. *)
Theorem create_summary_fields (data : list (list (gmap string V))) f :
  is_Some (create_summary data !! f) ↔
  ∃ individual_data registry_data,
    individual_data ∈ data ∧ registry_data ∈ individual_data ∧
    is_Some (registry_data !! f).
Proof.
  rewrite create_summary_lookup_is_Some. unfold all_lines. split.
  - intros (line & Hin & Hf). apply list_elem_of_In, in_concat in Hin.
    destruct Hin as (individual_data & ?%list_elem_of_In & ?%list_elem_of_In).
    eauto.
  - intros (individual_data & line & Hi & Hl & Hf). exists line.
    split; [|done]. apply list_elem_of_In, in_concat.
    exists individual_data. by rewrite <- !list_elem_of_In.
Qed.

(** X15.  The summary is empty exactly when the input has no line with a
    field: no individuals, individuals without lines, or empty lines
    only. *)
Theorem create_summary_empty (data : list (list (gmap string V))) :
  create_summary data = ∅ ↔ Forall (Forall (λ line, line = ∅)) data.
Proof.
  rewrite map_empty. split.
  - intros Hnone. apply Forall_forall; intros individual_data Hi.
    apply Forall_forall; intros line Hl. apply map_empty; intros f.
    destruct (line !! f) as [v|] eqn:Hf; [|done].
    assert (is_Some (create_summary data !! f)) as [? Hsome].
    { apply create_summary_lookup_is_Some. exists line. split; [|by eauto].
      apply list_elem_of_In, in_concat. exists individual_data.
      by rewrite <- !list_elem_of_In. }
    by rewrite Hnone in Hsome.
  - intros Hall f. apply eq_None_not_Some.
    intros (line & Hin & Hf)%create_summary_lookup_is_Some.
    apply list_elem_of_In, in_concat in Hin.
    destruct Hin as (individual_data & Hi%list_elem_of_In & Hl%list_elem_of_In).
    rewrite Forall_forall in Hall. specialize (Hall _ Hi).
    rewrite Forall_forall in Hall. rewrite (Hall _ Hl), lookup_empty in Hf.
    by destruct Hf.
Qed.

(** X16.  Summaries add up: the count of a field and value in the summary
    of two inputs put together is the sum of the counts in the summaries
    of the two inputs. *)
Theorem create_summary_app (d1 d2 : list (list (gmap string V))) f v :
  default 0 (tally_at (create_summary (d1 ++ d2)) f v) =
  default 0 (tally_at (create_summary d1) f v) +
  default 0 (tally_at (create_summary d2) f v).
Proof.
  rewrite !count_create_summary. unfold all_lines.
  by rewrite concat_app, occurrences_app.
Qed.

(** X17.  The summary of one line gives every field of the line the count
    1 for the value it has there. *)
Theorem create_summary_one_line (line : gmap string V) :
  create_summary [[line]] = (λ v, {[ v := 1 ]}) <$> line.
Proof.
  apply positive_tally_ext.
  - apply positive_tally_create_summary.
  - intros f counts. rewrite lookup_fmap.
    destruct (line !! f) as [v|]; simpl; [|done]. intros [= <-]. split.
    + apply insert_non_empty.
    + intros v'. rewrite lookup_singleton.
      by destruct (decide (v = v')).
  - intros f v. rewrite count_create_summary. unfold tally_at, all_lines.
    simpl. unfold occurrences. rewrite lookup_fmap, filter_cons, filter_nil.
    destruct (decide (line !! f = Some v)) as [Hf|Hf].
    + rewrite Hf. simpl. by rewrite lookup_singleton_eq.
    + destruct (line !! f) as [v'|]; simpl; [|done].
      rewrite lookup_singleton_ne; [done | congruence].
Qed.

Lemma field_total_insert (counts : gmap V nat) x n :
  field_total (<[x := n]> counts) = n + field_total (delete x counts).
Proof.
  rewrite <- insert_delete_eq. unfold field_total.
  rewrite map_fold_insert_L; [done| |apply lookup_delete_eq].
  intros. lia.
Qed.

Lemma field_total_delete (counts : gmap V nat) x n :
  counts !! x = Some n →
  field_total counts = n + field_total (delete x counts).
Proof.
  intros Hx. unfold field_total.
  rewrite (map_fold_delete_L _ _ x n counts); [done| |done].
  intros. lia.
Qed.

Lemma field_total_count_value (results : tally) key value f :
  field_total (default ∅ (count_value results key value !! f)) =
  field_total (default ∅ (results !! f)) + (if decide (key = f) then 1 else 0).
Proof.
  rewrite count_value_insert; simpl. rewrite lookup_insert.
  destruct (decide (key = f)) as [<-|]; simpl; [|lia].
  rewrite field_total_insert.
  destruct (default ∅ (results !! key) !! value) as [n|] eqn:Hv; simpl.
  - rewrite (field_total_delete _ _ _ Hv). lia.
  - rewrite delete_id by done. lia.
Qed.

Lemma field_total_foldl (results : tally) (l : list (string * V)) f :
  field_total (default ∅ (foldl count_item results l !! f)) =
  field_total (default ∅ (results !! f))
  + length (filter (λ kv, kv.1 = f) l).
Proof.
  revert results. induction l as [|[k x] l IH]; intros results; simpl.
  - lia.
  - rewrite IH. unfold count_item; simpl.
    rewrite field_total_count_value, filter_cons. simpl.
    destruct (decide (k = f)); simpl; lia.
Qed.

Lemma length_filter_none {A} (P : A → Prop) `{∀ x, Decision (P x)} l :
  Forall (λ x, ¬ P x) l → length (filter P l) = 0.
Proof.
  induction 1 as [|x l Hx Hl IH]; [done|].
  rewrite filter_cons. by rewrite decide_False.
Qed.

Lemma length_filter_key (line : gmap string V) f :
  length (filter (λ kv, kv.1 = f) (map_to_list line)) =
  if decide (is_Some (line !! f)) then 1 else 0.
Proof.
  destruct (line !! f) as [v|] eqn:Hf.
  - rewrite decide_True by eauto.
    rewrite <- (map_to_list_delete _ _ _ Hf), filter_cons. simpl.
    rewrite decide_True by done. simpl. f_equal.
    apply length_filter_none, Forall_forall. intros [k x] Hin Hk; simpl in Hk.
    apply elem_of_map_to_list in Hin. subst k.
    by rewrite lookup_delete_eq in Hin.
  - rewrite decide_False by (by intros [? ?]).
    apply length_filter_none, Forall_forall. intros [k x] Hin Hk; simpl in Hk.
    apply elem_of_map_to_list in Hin. congruence.
Qed.

(** X18.  The counts that the summary holds for a field add up to the
    number of lines that have the field. *)
Theorem create_summary_field_total (data : list (list (gmap string V))) f :
  field_total (default ∅ (create_summary data !! f)) =
  length (filter (λ line, is_Some (line !! f)) (all_lines data)).
Proof.
  rewrite create_summary_items, field_total_foldl, lookup_empty. simpl.
  unfold field_total at 1. rewrite map_fold_empty. simpl.
  unfold items. induction (all_lines data) as [|line lines IH]; [done|].
  simpl. rewrite filter_app, length_app, IH, length_filter_key, filter_cons.
  by destruct (decide (is_Some (line !! f))).
Qed.

End TallyProperties.

Section SummaryHandlerProperties.

Context {V : Type} `{Countable V}.

Variable decrypt_and_deserialize : string → result (gmap string V).
Variable PRESENTATION_SERVER_RECIPIENT : string.
Variable PRESENTATION_SERVER_PORT : Z.

Lemma collect_Ok {A B} (f : A → result B) l out :
  Forall2 (λ x y, f x = Ok y) l out → collect f l = Ok out.
Proof.
  induction 1 as [|x y l out Hx _ IH]; [done|]. simpl. by rewrite Hx, IH.
Qed.

Lemma collect_Raised {A B} (f : A → result B) pre x post e :
  Forall (λ x, ∃ y, f x = Ok y) pre →
  f x = Raised e →
  collect f (pre ++ x :: post) = Raised e.
Proof.
  intros Hpre Hx. induction Hpre as [|x' pre [y Hy] _ IH]; simpl.
  - by rewrite Hx.
  - by rewrite Hy, IH.
Qed.

Lemma collect_fmap {A B} (f : A → result B) (g : A → B) l :
  Forall (λ x, f x = Ok (g x)) l → collect f l = Ok (g <$> l).
Proof.
  induction 1 as [|x l Hx _ IH]; [done|]. simpl. by rewrite Hx, IH.
Qed.

Local Abbreviation decoded_all :=
  (fmap (M := list)
     (fmap (M := list) (decoded decrypt_and_deserialize))).

Lemma collect_decrypt_all (data : list (list string)) :
  Forall (Forall (λ encrypted,
            ∃ line, decrypt_and_deserialize encrypted = Ok line)) data →
  collect (collect decrypt_and_deserialize) data =
  Ok (decoded_all data).
Proof.
  intros Hall. apply collect_fmap. eapply Forall_impl; [exact Hall|].
  intros dataline Hline. apply collect_fmap.
  eapply Forall_impl; [exact Hline|]. intros encrypted [line Hl].
  unfold decoded. by rewrite Hl.
Qed.

Lemma create_summary_lines_Permutation
    (d1 d2 : list (list (gmap string V))) :
  all_lines d1 ≡ₚ all_lines d2 → create_summary d1 = create_summary d2.
Proof.
  intros Hp. apply positive_tally_ext.
  - apply positive_tally_create_summary.
  - apply positive_tally_create_summary.
  - intros f v. rewrite !count_create_summary.
    by apply occurrences_Permutation.
Qed.

(** X19.  When every line of the request decrypts, the summary handler
    lets out exactly two things, in this order: the summary of the
    decrypted lines for the presentation server, with the [query_id] and
    the [metadata] of the request, and an empty response. *)
Theorem SummaryHandler_handle_summary request
    (results : list (list (gmap string V))) :
  Forall2 (Forall2 (λ encrypted line,
             decrypt_and_deserialize encrypted = Ok line))
          (req_data request) results →
  SummaryHandler_handle decrypt_and_deserialize
    PRESENTATION_SERVER_RECIPIENT PRESENTATION_SERVER_PORT request =
  ([EvPresent (create_summary results) (req_query_id request)
              (req_metadata request)
              PRESENTATION_SERVER_RECIPIENT PRESENTATION_SERVER_PORT;
    EvRespond ""],
   Ok tt).
Proof.
  intros Hall. unfold SummaryHandler_handle.
  rewrite (collect_Ok _ _ results); [done|].
  eapply Forall2_impl; [exact Hall|]. intros dataline line Hline.
  by apply collect_Ok.
Qed.

(** X20.  When a line of the request does not decrypt, the summary handler
    ends with the exception of the first such line, and lets nothing out:
    no summary, however partial, and no response. *)
Theorem SummaryHandler_handle_decrypt_error metadata query_id
    individuals lines encrypted lines' individuals' e :
  Forall (Forall (λ encrypted,
            ∃ line, decrypt_and_deserialize encrypted = Ok line))
         individuals →
  Forall (λ encrypted, ∃ line, decrypt_and_deserialize encrypted = Ok line)
         lines →
  decrypt_and_deserialize encrypted = Raised e →
  SummaryHandler_handle decrypt_and_deserialize
    PRESENTATION_SERVER_RECIPIENT PRESENTATION_SERVER_PORT
    (SummaryRequest metadata query_id
       (individuals ++ (lines ++ encrypted :: lines') :: individuals')) =
  ([], Raised e).
Proof.
  intros Hbefore Hlines Hbad. unfold SummaryHandler_handle. simpl.
  rewrite (collect_Raised _ individuals _ individuals' e); [done| |].
  - eapply Forall_impl; [exact Hbefore|]. intros dataline Hline.
    exists (decoded decrypt_and_deserialize <$> dataline). apply collect_fmap.
    eapply Forall_impl; [exact Hline|]. intros enc [line Hl].
    unfold decoded. by rewrite Hl.
  - by apply collect_Raised.
Qed.

(** X21.  What the summary handler lets out does not depend on the order
    of the individuals in the request, nor on the order of the lines of an
    individual, when every line decrypts. *)
Theorem SummaryHandler_handle_order_independent metadata query_id
    (data data1 data' : list (list string)) :
  Forall (Forall (λ encrypted,
            ∃ line, decrypt_and_deserialize encrypted = Ok line)) data →
  data ≡ₚ data1 →
  Forall2 (≡ₚ) data1 data' →
  SummaryHandler_handle decrypt_and_deserialize
    PRESENTATION_SERVER_RECIPIENT PRESENTATION_SERVER_PORT
    (SummaryRequest metadata query_id data') =
  SummaryHandler_handle decrypt_and_deserialize
    PRESENTATION_SERVER_RECIPIENT PRESENTATION_SERVER_PORT
    (SummaryRequest metadata query_id data).
Proof.
  intros Hall Hout Hin.
  assert (Forall (Forall (λ encrypted,
            ∃ line, decrypt_and_deserialize encrypted = Ok line)) data')
    as Hall'.
  { rewrite Hout in Hall. clear Hout.
    induction Hin as [|l l' d d' Hl _ IH]; [done|].
    apply Forall_cons in Hall as [Hl1 Hall]. constructor; [|by apply IH].
    by rewrite <- Hl. }
  unfold SummaryHandler_handle. simpl.
  rewrite (collect_decrypt_all _ Hall), (collect_decrypt_all _ Hall').
  do 3 f_equal. apply create_summary_lines_Permutation. symmetry.
  apply (all_lines_Permutation _ (decoded_all data1)).
  - by apply fmap_Permutation.
  - clear Hall Hall' Hout. induction Hin as [|l l' d d' Hl _ IH]; simpl.
    + constructor.
    + constructor; [by apply fmap_Permutation | done].
Qed.

End SummaryHandlerProperties.

(** ** The further properties on the sample inputs *)

Ltac decide_by_computation := apply (bool_decide_unpack _); vm_compute; exact I.

Lemma sample_live_feed : live_feed [Sample.q1; Sample.q2].
Proof. repeat constructor. Defined.

Lemma fetch_queries_live_feed_witness :
  live_feed [Sample.q1; Sample.q2] ∧
  fetch_queries Sample.sign Sample.dumps [Sample.q1; Sample.q2] "hunt"
    (State ∅ []) =
  (Ok tt,
   State (∅ ∪ feed_records Sample.sign Sample.dumps [Sample.q1; Sample.q2])
         ([] ++ [EvFetchFeed])).
Proof.
  split; [exact sample_live_feed|].
  exact (fetch_queries_live_feed Sample.sign Sample.dumps
           [Sample.q1; Sample.q2] "hunt" (State ∅ []) sample_live_feed).
Defined.

Lemma fetch_queries_twice_witness :
  live_feed [Sample.q1; Sample.q2] ∧
  signed_query_store
    (fetch_queries Sample.sign Sample.dumps [Sample.q1; Sample.q2] "cancer"
       (fetch_queries Sample.sign Sample.dumps [Sample.q1; Sample.q2] "hunt"
          (State ∅ [])).2).2
  = signed_query_store
      (fetch_queries Sample.sign Sample.dumps [Sample.q1; Sample.q2] "hunt"
         (State ∅ [])).2.
Proof.
  split; [exact sample_live_feed|].
  exact (fetch_queries_twice Sample.sign Sample.dumps
           [Sample.q1; Sample.q2] "hunt" "cancer" (State ∅ [])
           sample_live_feed).
Defined.



Lemma fetch_queries_retiring_feed_once_witness :
  NoDup (id <$> [Sample.q2; Sample.q1_done]) ∧
  Exists (λ q, get_truthy (status q) = true) [Sample.q2; Sample.q1_done] ∧
  (fetch_queries Sample.sign Sample.dumps [Sample.q2; Sample.q1_done] "hunt"
     Sample.st).1 = Ok tt ∧
  ∃ q, q ∈ [Sample.q2; Sample.q1_done] ∧ get_truthy (status q) = true ∧
       (fetch_queries Sample.sign Sample.dumps [Sample.q2; Sample.q1_done]
          "cancer"
          (fetch_queries Sample.sign Sample.dumps
             [Sample.q2; Sample.q1_done] "hunt" Sample.st).2).1
       = Raised (KeyError (id q)).
Proof.
  assert (H1 : NoDup (id <$> [Sample.q2; Sample.q1_done]))
    by decide_by_computation.
  assert (H2 : Exists (λ q, get_truthy (status q) = true)
                 [Sample.q2; Sample.q1_done]).
  { apply Exists_cons_tl, Exists_cons_hd. reflexivity. }
  assert (H3 : (fetch_queries Sample.sign Sample.dumps
                  [Sample.q2; Sample.q1_done] "hunt" Sample.st).1 = Ok tt)
    by (vm_compute; reflexivity).
  split_and!; [exact H1 | exact H2 | exact H3 |].
  exact (fetch_queries_retiring_feed_once Sample.sign Sample.dumps
           [Sample.q2; Sample.q1_done] "hunt" "cancer" Sample.st H1 H2 H3).
Defined.

Lemma handle_touches_named_ids_witness :
  ("q2" ∉ id <$> [Sample.q1]) ∧
  ("q2" ∉ [("q1", JStr "good")].*1) ∧
  signed_query_store
    (handle Sample.sign Sample.verify Sample.dumps Sample.RECIPIENTS
       (Some "hunt") [Sample.q1] [("q1", JStr "good")] Sample.st).2 !! "q2"
  = signed_query_store Sample.st !! "q2".
Proof.
  assert (H1 : "q2" ∉ id <$> [Sample.q1]) by decide_by_computation.
  assert (H2 : "q2" ∉ [("q1", JStr "good")].*1) by decide_by_computation.
  split_and!; [exact H1 | exact H2 |].
  exact (handle_touches_named_ids Sample.sign Sample.verify Sample.dumps
           Sample.RECIPIENTS (Some "hunt") [Sample.q1] [("q1", JStr "good")]
           Sample.st "q2" H1 H2).
Defined.

Lemma sample_keyed_by_id : keyed_by_id (signed_query_store Sample.st).
Proof.
  change (map_Forall (λ k r, id (entry r) = k ∧
                             get_truthy (status (entry r)) = false)
                     Sample.store).
  decide_by_computation.
Defined.

Lemma handle_keeps_keyed_by_id_witness :
  keyed_by_id (signed_query_store Sample.st) ∧
  keyed_by_id
    (signed_query_store
       (handle Sample.sign Sample.verify Sample.dumps Sample.RECIPIENTS
          (Some "hunt") [Sample.q2; Sample.q1_done] Sample.batch
          Sample.st).2).
Proof.
  split; [exact sample_keyed_by_id|].
  exact (handle_keeps_keyed_by_id Sample.sign Sample.verify Sample.dumps
           Sample.RECIPIENTS (Some "hunt") [Sample.q2; Sample.q1_done]
           Sample.batch Sample.st sample_keyed_by_id).
Defined.

Lemma sample_signed_by_valid : signed_by_valid (signed_query_store Sample.st).
Proof.
  change (map_Forall (λ (_ : string) r,
                        Forall (λ src, src ∈ valid_sources) (signed_by r))
                     Sample.store).
  decide_by_computation.
Defined.

Lemma handle_keeps_signed_by_valid_witness :
  signed_by_valid (signed_query_store Sample.st) ∧
  signed_by_valid
    (signed_query_store
       (handle Sample.sign Sample.verify Sample.dumps Sample.RECIPIENTS
          (Some "hunt") [Sample.q1] Sample.batch Sample.st).2).
Proof.
  split; [exact sample_signed_by_valid|].
  exact (handle_keeps_signed_by_valid Sample.sign Sample.verify Sample.dumps
           Sample.RECIPIENTS (Some "hunt") [Sample.q1] Sample.batch
           Sample.st sample_signed_by_valid).
Defined.

Lemma handle_round_witness :
  "hunt" ∈ valid_sources ∧
  Sample.RECIPIENTS !! "hunt" = Some "hunt-key" ∧
  "hunt-key" ≠ "" ∧
  live_feed [Sample.q1; Sample.q2] ∧
  Forall (λ kv, Sample.verify kv.2 = true ∧
                is_Some ((signed_query_store (State ∅ []) ∪
                          feed_records Sample.sign Sample.dumps
                            [Sample.q1; Sample.q2]) !! kv.1))
         [("q1", JStr "good")] ∧
  handle Sample.sign Sample.verify Sample.dumps Sample.RECIPIENTS
         (Some "hunt") [Sample.q1; Sample.q2] [("q1", JStr "good")]
         (State ∅ []) =
  let fetched :=
    signed_query_store (State ∅ []) ∪
    feed_records Sample.sign Sample.dumps [Sample.q1; Sample.q2] in
  (Ok tt,
   {| signed_query_store := merged "hunt" [("q1", JStr "good")] fetched;
      trace := trace (State ∅ []) ++
               [EvFetchFeed;
                EvSend (filter_queries "hunt" fetched) "hunt-key"] |}).
Proof.
  assert (H1 : "hunt" ∈ valid_sources) by decide_by_computation.
  assert (H2 : Sample.RECIPIENTS !! "hunt" = Some "hunt-key") by reflexivity.
  assert (H3 : "hunt-key" ≠ "") by discriminate.
  assert (H5 : Forall (λ kv, Sample.verify kv.2 = true ∧
                is_Some ((signed_query_store (State ∅ []) ∪
                          feed_records Sample.sign Sample.dumps
                            [Sample.q1; Sample.q2]) !! kv.1))
                [("q1", JStr "good")]).
  { constructor; [|constructor].
    split; [reflexivity | eexists; vm_compute; reflexivity]. }
  split_and!; [exact H1 | exact H2 | exact H3 | exact sample_live_feed
              | exact H5 |].
  exact (handle_round Sample.sign Sample.verify Sample.dumps
           Sample.RECIPIENTS "hunt" "hunt-key" [Sample.q1; Sample.q2]
           [("q1", JStr "good")] (State ∅ []) H1 H2 H3 sample_live_feed H5).
Defined.


Lemma handle_signed_queries_verified_batch_witness :
  NoDup [("q1", JStr "good"); ("q2", JStr "good")].*1 ∧
  Forall (λ kv, Sample.verify kv.2 = true ∧
                is_Some (signed_query_store Sample.st !! kv.1))
         [("q1", JStr "good"); ("q2", JStr "good")] ∧
  ∃ st',
    handle_signed_queries Sample.verify "cancer"
      [("q1", JStr "good"); ("q2", JStr "good")] Sample.st = (Ok tt, st') ∧
    trace st' = trace Sample.st ∧
    (∀ k q, (k, q) ∈ [("q1", JStr "good"); ("q2", JStr "good")] →
       signed_query_store st' !! k =
       (λ r, {| entry := entry r;
                signed_by := signed_by r ++ ["cancer"];
                signed := q |}) <$> signed_query_store Sample.st !! k) ∧
    (∀ k, k ∉ [("q1", JStr "good"); ("q2", JStr "good")].*1 →
       signed_query_store st' !! k = signed_query_store Sample.st !! k).
Proof.
  assert (H1 : NoDup [("q1", JStr "good"); ("q2", JStr "good")].*1)
    by decide_by_computation.
  assert (H2 : Forall (λ kv, Sample.verify kv.2 = true ∧
                 is_Some (signed_query_store Sample.st !! kv.1))
                 [("q1", JStr "good"); ("q2", JStr "good")]).
  { repeat constructor; eexists; vm_compute; reflexivity. }
  split_and!; [exact H1 | exact H2 |].
  exact (handle_signed_queries_verified_batch Sample.verify "cancer"
           [("q1", JStr "good"); ("q2", JStr "good")] Sample.st H1 H2).
Defined.

Lemma SummaryHandler_handle_summary_witness :
  Forall2 (Forall2 (λ encrypted line, Sample.decrypt encrypted = Ok line))
          (req_data (SummaryRequest (JStr "report") "q1" Sample.lines))
          Sample.cohort ∧
  SummaryHandler_handle Sample.decrypt "presentation-key" 50030
    (SummaryRequest (JStr "report") "q1" Sample.lines) =
  ([EvPresent (create_summary Sample.cohort) "q1" (JStr "report")
              "presentation-key" 50030;
    EvRespond ""],
   Ok tt).
Proof.
  assert (H1 : Forall2 (Forall2 (λ encrypted line,
                          Sample.decrypt encrypted = Ok line))
                 (req_data (SummaryRequest (JStr "report") "q1" Sample.lines))
                 Sample.cohort).
  { repeat constructor. }
  split; [exact H1|].
  exact (SummaryHandler_handle_summary Sample.decrypt "presentation-key"
           50030 (SummaryRequest (JStr "report") "q1" Sample.lines)
           Sample.cohort H1).
Defined.

Lemma SummaryHandler_handle_decrypt_error_witness :
  Forall (Forall (λ encrypted, ∃ line, Sample.decrypt encrypted = Ok line))
         [["enc(F)"; "enc(elder)"]] ∧
  Forall (λ encrypted, ∃ line, Sample.decrypt encrypted = Ok line)
         ["enc(M)"] ∧
  Sample.decrypt "garbage" = Raised (ValueError "cannot decrypt" "garbage") ∧
  SummaryHandler_handle Sample.decrypt "presentation-key" 50030
    (SummaryRequest (JStr "report") "q1"
       ([["enc(F)"; "enc(elder)"]] ++
        (["enc(M)"] ++ "garbage" :: ["enc(F)"]) :: [["enc(M)"]])) =
  ([], Raised (ValueError "cannot decrypt" "garbage")).
Proof.
  assert (H1 : Forall (Forall (λ encrypted,
                         ∃ line, Sample.decrypt encrypted = Ok line))
                 [["enc(F)"; "enc(elder)"]]).
  { repeat constructor; eexists; reflexivity. }
  assert (H2 : Forall (λ encrypted, ∃ line, Sample.decrypt encrypted = Ok line)
                 ["enc(M)"]).
  { repeat constructor; eexists; reflexivity. }
  assert (H3 : Sample.decrypt "garbage"
               = Raised (ValueError "cannot decrypt" "garbage"))
    by reflexivity.
  split_and!; [exact H1 | exact H2 | exact H3 |].
  exact (SummaryHandler_handle_decrypt_error Sample.decrypt
           "presentation-key" 50030 (JStr "report") "q1"
           [["enc(F)"; "enc(elder)"]] ["enc(M)"] "garbage" ["enc(F)"]
           [["enc(M)"]] _ H1 H2 H3).
Defined.

Lemma SummaryHandler_handle_order_independent_witness :
  Forall (Forall (λ encrypted, ∃ line, Sample.decrypt encrypted = Ok line))
         Sample.lines ∧
  Sample.lines ≡ₚ Sample.lines_swapped ∧
  Forall2 (≡ₚ) Sample.lines_swapped Sample.lines_reordered ∧
  SummaryHandler_handle Sample.decrypt "presentation-key" 50030
    (SummaryRequest (JStr "report") "q1" Sample.lines_reordered) =
  SummaryHandler_handle Sample.decrypt "presentation-key" 50030
    (SummaryRequest (JStr "report") "q1" Sample.lines).
Proof.
  assert (H1 : Forall (Forall (λ encrypted,
                         ∃ line, Sample.decrypt encrypted = Ok line))
                 Sample.lines).
  { repeat constructor; eexists; reflexivity. }
  assert (H2 : Sample.lines ≡ₚ Sample.lines_swapped) by apply perm_swap.
  assert (H3 : Forall2 (≡ₚ) Sample.lines_swapped Sample.lines_reordered).
  { constructor; [reflexivity|].
    constructor; [apply perm_swap | constructor]. }
  split_and!; [exact H1 | exact H2 | exact H3 |].
  exact (SummaryHandler_handle_order_independent Sample.decrypt
           "presentation-key" 50030 (JStr "report") "q1"
           Sample.lines Sample.lines_swapped Sample.lines_reordered
           H1 H2 H3).
Defined.
